(** * Session bookkeeping of the WebXR demo (src/init.js)

    The second module of [src/src/init.js] keeps a handful of module-level
    accumulators ([startTime], [elapsedTime], [lastLoggedTime], [steps],
    [totalDistance], [previousPosition]) and updates them from the render
    loop callback [animate], which also writes a four-line report to the
    console every ten accumulated seconds.

    Numbers.  The source is read twice.  In the first reading a JavaScript
    number is an exact rational ([Q]), the "real seconds" of the
    specification: [+], [-], [*], [/] are the field operations, [===] on
    numbers is [Qeq_bool] and [>=] is [Qle_bool] with the arguments
    swapped.  It carries the facts that do not depend on rounding: which
    bindings a call writes, the order of events, invariants of the
    schedule.  In the second reading ([Binary64]) a number is an IEEE 754
    binary64 value and every operation is rounded as the language rounds
    it; it carries the facts about accumulated values and printed digits.
    The counter [steps] only ever holds zero; the first reading keeps it
    in [Z]. *)

From Stdlib Require Import ZArith QArith Qround Qabs Lqa Lia ZifyNat.
From Stdlib Require Import Bool List String Ascii.
From Stdlib Require Import Decimal DecimalString DecimalN.
From Stdlib Require DecimalFacts DecimalPos.
From Stdlib Require Import PrimFloat FloatOps SpecFloat.
Import ListNotations.

Local Open Scope Q_scope.

(** ** Host values *)

(** [THREE.Vector3]: three numeric components. *)
Record Vector3 : Type := mkVector3 { vx : Q; vy : Q; vz : Q }.

(** [new THREE.Vector3()] is the origin. *)
Definition Vector3_new : Vector3 := mkVector3 0 0 0.

(** Component-wise numeric equality of two vectors (THREE's [equals]). *)
Definition Vector3_equals (p q : Vector3) : bool :=
  Qeq_bool (vx p) (vx q) && Qeq_bool (vy p) (vy q) && Qeq_bool (vz p) (vz q).

(** Squared Euclidean distance, THREE's [distanceToSquared]. *)
Definition distanceToSquared (p q : Vector3) : Q :=
  let dx := vx p - vx q in
  let dy := vy p - vy q in
  let dz := vz p - vz q in
  dx * dx + dy * dy + dz * dz.

(** [d] is the Euclidean distance between [p] and [q]: the non-negative
    root of the squared distance (stated as a relation, since [Q] has no
    square root function). *)
Definition is_distance (p q : Vector3) (d : Q) : Prop :=
  0 <= d /\ d * d == distanceToSquared p q.

(** [path_length ps l]: [l] is the sum of the Euclidean distances between
    consecutive positions of [ps]; a path of fewer than two samples has
    length zero. *)
Inductive path_length : list Vector3 -> Q -> Prop :=
| path_nil : path_length [] 0
| path_one : forall p, path_length [p] 0
| path_cons : forall p q ps d l,
    is_distance q p d ->
    path_length (q :: ps) l ->
    path_length (p :: q :: ps) (d + l).

(** ** Number formatting *)

Local Open Scope string_scope.

(** Decimal digits of a non-negative integer, ["0"] for zero. *)
Definition decimal_digits (n : Z) : string :=
  NilZero.string_of_uint (N.to_uint (Z.to_N n)).

(** [zeros k] is the string of [k] characters ["0"]. *)
Fixpoint zeros (k : nat) : string :=
  match k with
  | O => ""
  | S k' => String "0" (zeros k')
  end.

(** [10 ^ k] as a rational. *)
Definition pow10 (k : nat) : Q := inject_Z (10 ^ Z.of_nat k).

(** Template-literal conversion [`${n}`] of an integer-valued number below
    [10^21] in magnitude: an optional minus sign and the decimal digits. *)
Definition integer_to_string (n : Z) : string :=
  if (n <? 0)%Z then "-" ++ decimal_digits (- n) else decimal_digits n.

(** A host printer to evaluate examples with; none of the examples below
    reaches a magnitude of [10^21], where it would be called. *)
Definition NumberToString_example (x : Q) : string := "1e+21".

(** ** Controllers (both versions of [init], src/init.js:87-117, 265-299) *)

(** [XRInputSource.handedness], the [e.data.handedness] of the events. *)
Inductive Handedness : Type := hand_none | hand_left | hand_right.

Definition Handedness_eqb (h k : Handedness) : bool :=
  match h, k with
  | hand_none, hand_none | hand_left, hand_left | hand_right, hand_right => true
  | _, _ => false
  end.

(** The [Gamepad] object of an input source, by identity. *)
Definition Gamepad : Type := nat.

(** The object literal a [connected] listener stores.  The listener of
    loop index [i] closes over the ray space, grip space and mesh of that
    index; [gamepad] is [new GamepadWrapper(e.data.gamepad)], kept as the
    gamepad it wraps. *)
Record ControllerEntry : Type := mkControllerEntry {
  raySpace : nat;
  gripSpace : nat;
  mesh : nat;
  gamepad : Gamepad
}.

(** The [controllers] object: its own properties in creation order, a
    value being [null] ([None]) or an entry.  The keys are handedness
    names, none of them an array index, so [Object.values] enumerates them
    in creation order. *)
Definition Controllers : Type := list (Handedness * option ControllerEntry).

(** [{ left: null, right: null }]. *)
Definition controllers_init : Controllers :=
  [(hand_left, None); (hand_right, None)].

(** [controllers[h]]: [None] when the object has no property [h]. *)
Fixpoint obj_get (h : Handedness) (c : Controllers) : option (option ControllerEntry) :=
  match c with
  | [] => None
  | (k, v) :: rest => if Handedness_eqb h k then Some v else obj_get h rest
  end.

(** [controllers[h] = v]: an existing property keeps its place, a new one
    is created after the others. *)
Fixpoint obj_set (h : Handedness) (v : option ControllerEntry) (c : Controllers) : Controllers :=
  match c with
  | [] => [(h, v)]
  | (k, w) :: rest =>
      if Handedness_eqb h k then (k, v) :: rest else (k, w) :: obj_set h v rest
  end.

Definition Object_keys (c : Controllers) : list Handedness := map fst c.
Definition Object_values (c : Controllers) : list (option ControllerEntry) := map snd c.

(** What the listeners write: the [visible] flags of the two ray spaces
    and grip spaces, and the [controllers] object. *)
Record XRState : Type := mkXRState {
  rayVisible : nat -> bool;
  gripVisible : nat -> bool;
  controllers : Controllers
}.

(** After the [for] loop: both flags of both indices are [false]. *)
Definition xr_init : XRState :=
  {| rayVisible := fun _ => false;
     gripVisible := fun _ => false;
     controllers := controllers_init |}.

Definition set_flag (i : nat) (b : bool) (f : nat -> bool) : nat -> bool :=
  fun j => if Nat.eqb j i then b else f j.

(** An event dispatched on the grip space of index [i]. *)
Inductive XREvent : Type :=
| Connected (i : nat) (handedness : Handedness) (g : Gamepad)
| Disconnected (i : nat) (handedness : Handedness).

Definition event_index (e : XREvent) : nat :=
  match e with Connected i _ _ | Disconnected i _ => i end.

Definition event_handedness (e : XREvent) : Handedness :=
  match e with Connected _ h _ | Disconnected _ h => h end.

(** The two listeners registered for index [i]. *)
Definition on_event (e : XREvent) (st : XRState) : XRState :=
  match e with
  | Connected i handedness g =>
      {| rayVisible := set_flag i true (rayVisible st);
         gripVisible := set_flag i true (gripVisible st);
         controllers :=
           obj_set handedness (Some (mkControllerEntry i i i g)) (controllers st) |}
  | Disconnected i handedness =>
      {| rayVisible := set_flag i false (rayVisible st);
         gripVisible := set_flag i false (gripVisible st);
         controllers := obj_set handedness None (controllers st) |}
  end.

(** A sequence of events, handled in order, from the state [init] leaves. *)
Definition on_events (events : list XREvent) : XRState :=
  fold_left (fun st e => on_event e st) events xr_init.

(** The last event of a sequence that satisfies [p]. *)
Definition last_event (p : XREvent -> bool) (events : list XREvent) : option XREvent :=
  find p (List.rev events).

Definition for_hand (h : Handedness) (e : XREvent) : bool :=
  Handedness_eqb (event_handedness e) h.

Definition for_index (i : nat) (e : XREvent) : bool :=
  Nat.eqb (event_index e) i.

(** What the last event of a hand leaves under its key: the entry of a
    connection, [null] after a disconnection or without any event. *)
Definition held_entry (h : Handedness) (events : list XREvent) : option ControllerEntry :=
  match last_event (for_hand h) events with
  | Some (Connected i _ g) => Some (mkControllerEntry i i i g)
  | _ => None
  end.

(** The gamepad a hand holds after a sequence of events: the one of its
    last event, if that was a connection. *)
Definition connected_gamepad (h : Handedness) (events : list XREvent) : list Gamepad :=
  match last_event (for_hand h) events with
  | Some (Connected _ _ g) => [g]
  | _ => []
  end.

(** The render loop of the first version of the file (src/init.js:139-149),
    which refreshes the gamepads before it calls back. *)
Module Template.

(** What one call does, in order. *)
Inductive Effect : Type :=
| GamepadUpdate (g : Gamepad)
| OnFrame (delta time : Q)
| Render.

(** [animate]: [delta] and [time] are the two clock readings; every
    non-null value of [controllers] has its gamepad updated
    ([controller?.gamepad] is an object, hence true, for every entry),
    then [onFrame(delta, time, globals)] and [renderer.render] run. *)
Definition animate (delta time : Q) (c : Controllers) : list Effect :=
  (flat_map (fun controller =>
               match controller with
               | Some entry => [GamepadUpdate (gamepad entry)]
               | None => []
               end) (Object_values c)
   ++ [OnFrame delta time; Render])%list.

End Template.

(** ** The program in binary64 arithmetic

    The claims whose truth depends on rounding are settled on this second
    reading of the same source, in which a JavaScript number is an IEEE 754
    binary64 value ([PrimFloat.float]) and [+], [-], [*], [/], [>=], [===]
    are the rounded operations and comparisons of the language. *)

(** The steps of [Number.prototype.toFixed] that work on the exact value
    [x] of a finite number: the sign is split off; from [10^21] on the
    result is the sign and [fallback], the host's printing of the
    magnitude; below, [n] is the integer nearest to [|x| * 10^f], the
    larger one on a tie, padded and pointed as in [toFixed] below. *)
Definition toFixed_exact (fallback : string) (f : nat) (x : Q) : string :=
  let s := if Qle_bool 0 x then "" else "-" in
  let x := Qabs x in
  if Qle_bool (pow10 21) x then s ++ fallback
  else
    let n := Qfloor (x * pow10 f + (1 # 2)) in
    let m := if (n =? 0)%Z then "0" else decimal_digits n in
    let m :=
      if (f =? 0)%nat then m
      else
        let k := String.length m in
        let m := if (k <=? f)%nat then zeros (f + 1 - k) ++ m else m in
        let k := String.length m in
        substring 0 (k - f) m ++ "." ++ substring (k - f) f m in
    s ++ m.

Module Binary64.

Definition Qlt_bool (a b : Q) : bool := negb (Qle_bool b a).

(** [2^e] and [10^e] for any integer exponent. *)
Definition pow2 (e : Z) : Q :=
  if (0 <=? e)%Z then inject_Z (2 ^ e) else (/ inject_Z (2 ^ (- e)))%Q.

Definition scale10 (e : Z) : Q :=
  if (0 <=? e)%Z then inject_Z (10 ^ e) else (/ inject_Z (10 ^ (- e)))%Q.

(** The real number a finite binary64 value stands for; [None] for NaN and
    the infinities. *)
Definition exact (x : float) : option Q :=
  match Prim2SF x with
  | S754_zero _ => Some 0%Q
  | S754_finite neg m e =>
      let magnitude := Qred (inject_Z (Z.pos m) * pow2 e) in
      Some (if neg then Qopp magnitude else magnitude)
  | S754_infinity _ | S754_nan => None
  end.

Definition exact_or (d : Q) (x : float) : Q :=
  match exact x with Some q => q | None => d end.

(** The exact sum of the values of a list of numbers, when all are finite. *)
Fixpoint exact_sum (xs : list float) : option Q :=
  match xs with
  | [] => Some 0%Q
  | x :: rest =>
      match exact x, exact_sum rest with
      | Some q, Some r => Some (q + r)%Q
      | _, _ => None
      end
  end.

Definition even_significand (x : float) : bool :=
  match Prim2SF x with
  | S754_finite _ m _ => Z.even (Z.pos m)
  | _ => true
  end.

(** Whether the real [v] rounds to the positive finite [x] (to nearest,
    ties to even): [v] lies between the midpoints towards the two
    neighbours of [x], a midpoint itself counting when the significand of
    [x] is even.  Above the largest finite number the neighbour is taken
    to be [2^1024]. *)
Definition rounds_to (v : Q) (x : float) : bool :=
  let X := exact_or 0 x in
  let below := exact_or 0 (next_down x) in
  let above := exact_or (pow2 1024) (next_up x) in
  let lower := ((below + X) / 2)%Q in
  let upper := ((X + above) / 2)%Q in
  (Qlt_bool lower v && Qlt_bool v upper)
  || (even_significand x && (Qeq_bool v lower || Qeq_bool v upper)).

(** The integer [n] with [10^(n-1) <= X < 10^n], for positive [X]. *)
Fixpoint magnitude_up (fuel : nat) (X : Q) (n : Z) : Z :=
  match fuel with
  | O => n
  | S fuel' => if Qlt_bool X (scale10 n) then n else magnitude_up fuel' X (n + 1)
  end.

Fixpoint magnitude_down (fuel : nat) (X : Q) (n : Z) : Z :=
  match fuel with
  | O => n
  | S fuel' =>
      if Qle_bool (scale10 (n - 1)) X then n else magnitude_down fuel' X (n - 1)
  end.

Definition magnitude (X : Q) : Z :=
  if Qle_bool 1 X then magnitude_up 400 X 1 else magnitude_down 400 X 0.

(** [s * 10^(n-k)] as a candidate for [x]: accepted when it rounds to [x],
    with its distance to [x]; [s = 10^k] is written [10^(k-1)] one
    magnitude up. *)
Definition candidate (x : float) (X : Q) (k n s : Z) : option (Z * Z * Q) :=
  let v := (inject_Z s * scale10 (n - k))%Q in
  if rounds_to v x
  then Some (if (s =? 10 ^ k)%Z then (10 ^ (k - 1), n + 1)%Z else (s, n), Qabs (v - X))
  else None.

(** ECMAScript, Number::toString, step 5: integers [s], [k], [n] with
    [k >= 1], [10^(k-1) <= s < 10^k], [s * 10^(n-k)] rounding to [x], and
    [k] as small as possible; of two such [s] the one closer to [x], the
    even one on a tie.  Seventeen digits always suffice. *)
Fixpoint shortest (fuel : nat) (x : float) (X : Q) (n k : Z) : Z * Z * Z :=
  match fuel with
  | O => (1, k, n)%Z
  | S fuel' =>
      let lo := Qfloor (X / scale10 (n - k)) in
      match candidate x X k n lo, candidate x X k n (lo + 1) with
      | Some (s1, n1, d1), Some (s2, n2, d2) =>
          if Qlt_bool d1 d2 then (s1, k, n1)
          else if Qlt_bool d2 d1 then (s2, k, n2)
          else if Z.even s1 then (s1, k, n1) else (s2, k, n2)
      | Some (s1, n1, _), None => (s1, k, n1)
      | None, Some (s2, n2, _) => (s2, k, n2)
      | None, None => shortest fuel' x X n (k + 1)
      end
  end.

(** Number::toString for a positive finite number, steps 5 to 11: plain
    digits up to [10^21], a leading ["0."] down to [10^-6], exponent
    notation elsewhere. *)
Definition positive_toString (x : float) : string :=
  let X := exact_or 0 x in
  let '(s, k, n) := shortest 17 x X (magnitude X) 1 in
  let digits := decimal_digits s in
  let kn := Z.to_nat k in
  if ((k <=? n) && (n <=? 21))%Z then digits ++ zeros (Z.to_nat (n - k))
  else if ((0 <? n) && (n <=? 21))%Z then
    substring 0 (Z.to_nat n) digits ++ "."
      ++ substring (Z.to_nat n) (kn - Z.to_nat n) digits
  else if ((-6 <? n) && (n <=? 0))%Z then "0." ++ zeros (Z.to_nat (- n)) ++ digits
  else
    let e := (n - 1)%Z in
    let exponent := (if (e <? 0)%Z then "-" else "+") ++ decimal_digits (Z.abs e) in
    if (k =? 1)%Z then digits ++ "e" ++ exponent
    else substring 0 1 digits ++ "." ++ substring 1 (kn - 1) digits ++ "e" ++ exponent.

(** Number::toString (radix 10), as used by template literals and by
    [toFixed] outside its own range. *)
Definition Number_toString (x : float) : string :=
  if is_nan x then "NaN"
  else if (x =? 0)%float then "0"
  else
    let sign := if (x <? 0)%float then "-" else "" in
    let x := abs x in
    if (x =? infinity)%float then sign ++ "Infinity"
    else sign ++ positive_toString x.

(** [Number.prototype.toFixed], steps 6 to 12: a number that is not
    finite is printed by Number::toString, a finite one from its exact
    value. *)
Definition toFixed_digits (f : nat) (x : float) : string :=
  match exact x with
  | None => Number_toString x
  | Some q => toFixed_exact (Number_toString (abs x)) f q
  end.

(** [x.toFixed(fractionDigits)]: [None] is the RangeError thrown for more
    than 100 places. *)
Definition toFixed (fractionDigits : nat) (x : float) : option string :=
  if (100 <? fractionDigits)%nat then None
  else Some (toFixed_digits fractionDigits x).

Local Open Scope float_scope.

(** [THREE.Vector3]. *)
Record Vector3 : Type := mkVector3 { vx : float; vy : float; vz : float }.

(** [const userHeight = 152], [const userWeight = 50]. *)
Definition userHeight : float := 152.
Definition userWeight : float := 50.

(** The six module-level [let] bindings and their initialisers. *)
Record State : Type := mkState {
  startTime : float;
  elapsedTime : float;
  lastLoggedTime : float;
  steps : float;
  totalDistance : float;
  previousPosition : Vector3
}.

Definition initial_state : State :=
  {| startTime := 0;
     elapsedTime := 0;
     lastLoggedTime := 0;
     steps := 0;
     totalDistance := 0;
     previousPosition := mkVector3 0 0 0 |}.

(** The two clock readings and the player position one call finds. *)
Record Frame : Type := mkFrame {
  delta : float;
  time : float;
  playerPosition : Vector3
}.

(** [calculateCaloriesBurned(weight, duration)], evaluated left to right. *)
Definition calculateCaloriesBurned (weight duration : float) : float :=
  let caloriesPerMinute := 8 in
  weight / 100 * caloriesPerMinute * duration.

(** The formula as the specification words it, on real numbers. *)
Definition real_calories (weightKg durationMinutes : Q) : Q :=
  ((weightKg / 100) * 8 * durationMinutes)%Q.

(** The four [console.log] calls of the reporting branch. *)
Definition report_lines (elapsed stepCount distance : float) : list string :=
  [ ("Time Elapsed: " ++ toFixed_digits 2 elapsed ++ " seconds")%string;
    ("Steps Taken: " ++ Number_toString stepCount)%string;
    ("Total Distance: " ++ toFixed_digits 2 distance ++ " meters")%string;
    ("Calories Burned: "
       ++ toFixed_digits 2 (calculateCaloriesBurned userWeight (elapsed / 60)))%string ].

(** One call of [animate] (src/init.js:338-367). *)
Definition animate (fr : Frame) (st : State) : State * list string :=
  let delta := delta fr in
  let time := time fr in
  (* if (startTime === 0) startTime = time; *)
  let startTime' := if startTime st =? 0 then time else startTime st in
  (* elapsedTime += delta; *)
  let elapsedTime' := elapsedTime st + delta in
  (* if (elapsedTime - lastLoggedTime >= 10) { ...; lastLoggedTime = elapsedTime; } *)
  if 10 <=? elapsedTime' - lastLoggedTime st then
    ({| startTime := startTime';
        elapsedTime := elapsedTime';
        lastLoggedTime := elapsedTime';
        steps := steps st;
        totalDistance := totalDistance st;
        previousPosition := previousPosition st |},
     report_lines elapsedTime' (steps st) (totalDistance st))
  else
    ({| startTime := startTime';
        elapsedTime := elapsedTime';
        lastLoggedTime := lastLoggedTime st;
        steps := steps st;
        totalDistance := totalDistance st;
        previousPosition := previousPosition st |},
     []).

Definition animate_state (fr : Frame) (st : State) : State := fst (animate fr st).
Definition animate_log (fr : Frame) (st : State) : list string := snd (animate fr st).
Definition reported (fr : Frame) (st : State) : bool :=
  match animate_log fr st with [] => false | _ :: _ => true end.

Fixpoint run_from (st : State) (frames : list Frame) : State :=
  match frames with
  | [] => st
  | fr :: rest => run_from (animate_state fr st) rest
  end.

Fixpoint trace_from (st : State) (frames : list Frame) : list (State * list string) :=
  match frames with
  | [] => []
  | fr :: rest => animate fr st :: trace_from (animate_state fr st) rest
  end.

Definition run (frames : list Frame) : State := run_from initial_state frames.
Definition trace (frames : list Frame) : list (State * list string) :=
  trace_from initial_state frames.

(** The binary64 sum of a list of numbers, taken from the left, from zero. *)
Definition sum_left (xs : list float) : float := fold_left add xs 0.

(** [n] frames of the same delta, the player at rest where [init] put it;
    the clock reading advances by the delta from [t]. *)
Fixpoint ticking (d t : float) (n : nat) : list Frame :=
  match n with
  | O => []
  | S n' => mkFrame d (t + d) (mkVector3 0 1.5 50) :: ticking d (t + d) n'
  end.

(** The number nearest to a tenth. *)
Definition tenth : float := 1 / 10.

(** The whole number [n] as a binary64 value (exact below [2^53]). *)
Definition whole (n : nat) : float := of_uint63 (Uint63Axioms.of_Z (Z.of_nat n)).

(** Whether, for the whole numbers [w] and [d], the value returned by
    [calculateCaloriesBurned] is within [2^-52] of the real value of the
    formula, relative to that value. *)
Definition within_rounding (w d : nat) : bool :=
  match exact (calculateCaloriesBurned (whole w) (whole d)) with
  | Some v =>
      let r := real_calories (inject_Z (Z.of_nat w)) (inject_Z (Z.of_nat d)) in
      Qle_bool (Qabs (v - r)) (r * pow2 (-52))
  | None => false
  end.

(** Whether a string holds a decimal point. *)
Fixpoint has_point (s : string) : bool :=
  match s with
  | EmptyString => false
  | String c rest => Ascii.eqb c "." || has_point rest
  end.

(** Whether an entry of a trace carries a report. *)
Definition has_report (entry : State * list string) : bool :=
  match snd entry with [] => false | _ :: _ => true end.

End Binary64.

Section Host.

(** [Number::toString] of the host for values of magnitude [10^21] and
    above, where [toFixed] falls back to the exponent notation.  The digits
    it prints depend on the binary64 representation, so the function is
    left to the host. *)
Variable NumberToString : Q -> string.

(** [Number.prototype.toFixed(f)] (ECMAScript, Number.prototype.toFixed):
    the sign is split off; [n] is the integer for which [n / 10^f - x] is
    as close to zero as possible, the larger one on a tie; its digits are
    padded with zeros to at least [f + 1] characters and the point is put
    before the last [f] of them. *)
Definition toFixed (f : nat) (x : Q) : string :=
  let s := if Qle_bool 0 x then "" else "-" in
  let x := Qabs x in
  if Qle_bool (pow10 21) x then s ++ NumberToString x
  else
    let n := Qfloor (x * pow10 f + (1 # 2)) in
    let m := if (n =? 0)%Z then "0" else decimal_digits n in
    let m :=
      if (f =? 0)%nat then m
      else
        let k := String.length m in
        let m := if (k <=? f)%nat then zeros (f + 1 - k) ++ m else m in
        let k := String.length m in
        substring 0 (k - f) m ++ "." ++ substring (k - f) f m in
    s ++ m.

(** [x.toFixed(f)] with the range check of its first steps: [None] is the
    RangeError the host throws for more than 100 places ([toFixed] above
    is the rest of the algorithm, which the code enters with [f = 2]). *)
Definition Number_toFixed (f : nat) (x : Q) : option string :=
  if (100 <? f)%nat then None else Some (toFixed f x).

(** ** Module state of init.js *)

(** [const userHeight = 152], [const userWeight = 50]. *)
Definition userHeight : Q := 152.
Definition userWeight : Q := 50.

(** The six module-level [let] bindings. *)
Record State : Type := mkState {
  startTime : Q;
  elapsedTime : Q;
  lastLoggedTime : Q;
  steps : Z;
  totalDistance : Q;
  previousPosition : Vector3
}.

(** Their initialisers. *)
Definition initial_state : State :=
  {| startTime := 0;
     elapsedTime := 0;
     lastLoggedTime := 0;
     steps := 0;
     totalDistance := 0;
     previousPosition := Vector3_new |}.

(** What one invocation of [animate] finds in its environment:
    [clock.getDelta()], [clock.getElapsedTime()] and the position of the
    player group ([globals.player.position]) at that moment. *)
Record Frame : Type := mkFrame {
  delta : Q;
  time : Q;
  playerPosition : Vector3
}.

(** [calculateCaloriesBurned(weight, duration)] on exact rationals; the
    rounded function is [Binary64.calculateCaloriesBurned]. *)
Definition calculateCaloriesBurned (weight duration : Q) : Q :=
  let caloriesPerMinute := 8%Q in
  ((weight / 100) * caloriesPerMinute * duration)%Q.

(** The argument of the last [console.log]:
    [calculateCaloriesBurned(userWeight, elapsedTime / 60)]. *)
Definition report_calories (elapsed : Q) : Q :=
  calculateCaloriesBurned userWeight (elapsed / 60)%Q.

(** The four [console.log] calls of the reporting branch, as the lines
    they write. *)
Definition report_lines (elapsed : Q) (stepCount : Z) (distance : Q) : list string :=
  [ "Time Elapsed: " ++ toFixed 2 elapsed ++ " seconds";
    "Steps Taken: " ++ integer_to_string stepCount;
    "Total Distance: " ++ toFixed 2 distance ++ " meters";
    "Calories Burned: " ++ toFixed 2 (report_calories elapsed) ].

(** One call of [animate] on exact rationals ([Binary64.animate] is the same
    function with rounded arithmetic): the new module state and the lines
    written to the console during the call.  The callback [onFrame] receives
    [globals], [delta] and [time] only; the module bindings are not
    exported, so it cannot change them (the entry point passes no callback
    at all), and [renderer.render] / [setAnimationLoop] do not touch them
    either. *)
Definition animate (fr : Frame) (st : State) : State * list string :=
  let delta := delta fr in
  let time := time fr in
  (* if (startTime === 0) startTime = time; *)
  let startTime' := if Qeq_bool (startTime st) 0 then time else startTime st in
  (* elapsedTime += delta; *)
  let elapsedTime' := (elapsedTime st + delta)%Q in
  (* if (elapsedTime - lastLoggedTime >= 10) { ...; lastLoggedTime = elapsedTime; } *)
  if Qle_bool 10 (elapsedTime' - lastLoggedTime st) then
    ({| startTime := startTime';
        elapsedTime := elapsedTime';
        lastLoggedTime := elapsedTime';
        steps := steps st;
        totalDistance := totalDistance st;
        previousPosition := previousPosition st |},
     report_lines elapsedTime' (steps st) (totalDistance st))
  else
    ({| startTime := startTime';
        elapsedTime := elapsedTime';
        lastLoggedTime := lastLoggedTime st;
        steps := steps st;
        totalDistance := totalDistance st;
        previousPosition := previousPosition st |},
     []).

(** The state after a call and whether the call wrote a report. *)
Definition animate_state (fr : Frame) (st : State) : State := fst (animate fr st).
Definition animate_log (fr : Frame) (st : State) : list string := snd (animate fr st).
Definition reported (fr : Frame) (st : State) : bool :=
  match animate_log fr st with [] => false | _ :: _ => true end.

(** The render loop: [animate] once per frame, in order.  [run_from]
    gives the final state, [trace_from] the state and console lines after
    every call. *)
Fixpoint run_from (st : State) (frames : list Frame) : State :=
  match frames with
  | [] => st
  | fr :: rest => run_from (animate_state fr st) rest
  end.

Fixpoint trace_from (st : State) (frames : list Frame) : list (State * list string) :=
  match frames with
  | [] => []
  | fr :: rest => animate fr st :: trace_from (animate_state fr st) rest
  end.

Definition run (frames : list Frame) : State := run_from initial_state frames.
Definition trace (frames : list Frame) : list (State * list string) :=
  trace_from initial_state frames.

(** Everything the console received over a run. *)
Definition console (frames : list Frame) : list string :=
  List.concat (map snd (trace frames)).

(** ** Specification-side notions *)

(** Every frame of the sequence has a non-negative delta. *)
Definition nonneg_deltas (frames : list Frame) : Prop :=
  Forall (fun fr => (0 <= delta fr)%Q) frames.

(** The recorded time stamps are strictly increasing. *)
Fixpoint increasing_times (frames : list Frame) : Prop :=
  match frames with
  | [] => True
  | fr :: rest =>
      match rest with
      | [] => True
      | fr' :: _ => (time fr < time fr')%Q /\ increasing_times rest
      end
  end.

(** The non-negative integer a string of decimal digits denotes, leading
    zeros allowed; [None] for the empty string and for anything else than
    digits. *)
Definition decimal_value (s : string) : option Z :=
  option_map (fun d => Z.of_N (N.of_uint d)) (NilZero.uint_of_string s).

(** [n] is the integer nearest to [x], the larger one on a tie. *)
Definition nearest_integer (x : Q) (n : Z) : Prop :=
  (x - (1 # 2) < inject_Z n /\ inject_Z n <= x + (1 # 2))%Q.

(** [s] prints the magnitude of [x] with [f] decimal places: an integer
    part of at least one digit, a point, and exactly [f] digits, which
    read together are the integer nearest to [|x| * 10^f]. *)
Definition prints_magnitude (f : nat) (x : Q) (s : string) : Prop :=
  exists a b n,
    s = a ++ "." ++ b
    /\ (1 <= String.length a)%nat
    /\ String.length b = f
    /\ decimal_value (a ++ b) = Some n
    /\ nearest_integer (Qabs x * pow10 f) n.

(** The sign [toFixed] prints in front of the magnitude. *)
Definition sign_prefix (x : Q) : string :=
  if Qle_bool 0 x then "" else "-".

(** The positions sampled by a sequence of frames. *)
Definition positions (frames : list Frame) : list Vector3 :=
  map playerPosition frames.

(** ** Scenarios *)

(** The position the player group is given at start-up,
    [player.position.set(0, 1.5, 50)]. *)
Definition player_start : Vector3 := mkVector3 0 (3 # 2) 50.

(** Scenario A: eleven frames of one second each, the player at rest. *)
Definition scenario_A : list Frame :=
  map (fun k => mkFrame 1 (inject_Z k) player_start)
      [1; 2; 3; 4; 5; 6; 7; 8; 9; 10; 11]%Z.

(** Twenty-one frames of one second each, long enough for two reports. *)
Definition scenario_A21 : list Frame :=
  map (fun k => mkFrame 1 (inject_Z k) player_start)
      [1; 2; 3; 4; 5; 6; 7; 8; 9; 10; 11; 12; 13; 14; 15; 16; 17; 18; 19; 20; 21]%Z.

(** Scenario B: a first frame at the origin, a second one at [(3,4,0)]. *)
Definition scenario_B : list Frame :=
  [ mkFrame (1 # 60) (1 # 60) (mkVector3 0 0 0);
    mkFrame (1 # 60) (2 # 60) (mkVector3 3 4 0) ].

(** A clock whose first reading of the elapsed time is zero (the clock
    was started by the [getDelta] call just before), followed by a frame
    a sixtieth of a second later. *)
Definition scenario_clock_zero : list Frame :=
  [ mkFrame 0 0 player_start;
    mkFrame (1 # 60) (1 # 60) player_start ].

(** A single frame with the player at its start-up position. *)
Definition scenario_first_frame : list Frame :=
  [ mkFrame (1 # 60) (1 # 60) player_start ].

(** Whether an entry of a trace carries a report. *)
Definition has_report (entry : State * list string) : bool :=
  match snd entry with [] => false | _ :: _ => true end.

(** The number of calls of a run that wrote a report. *)
Definition report_count (frames : list Frame) : nat :=
  List.length (filter has_report (trace frames)).

(** The first clock reading of a sequence of frames that is not zero. *)
Fixpoint first_nonzero_time (frames : list Frame) : option Q :=
  match frames with
  | [] => None
  | fr :: rest =>
      if Qeq_bool (time fr) 0 then first_nonzero_time rest else Some (time fr)
  end.

(** The part of the module state the reporting branch reads. *)
Definition report_inputs (st : State) : Q * Q * Z * Q :=
  (elapsedTime st, lastLoggedTime st, steps st, totalDistance st).

(** [n] frames of one second each, as in scenario A. *)
Definition one_second_frames (n : nat) : list Frame :=
  map (fun k => mkFrame 1 (inject_Z (Z.of_nat (S k))) player_start) (seq 0 n).

(** ** Basic facts about one call *)

(** [animate] has one branch point, the reporting threshold; most facts
    about a single call follow by looking at both sides of it. *)
Ltac animate_cases :=
  unfold reported, animate_log, animate_state, animate; simpl;
  destruct (Qle_bool 10 _); reflexivity.

Lemma animate_elapsedTime (fr : Frame) (st : State) :
  elapsedTime (animate_state fr st) = (elapsedTime st + delta fr)%Q.
Proof.
  animate_cases.
Qed.

Lemma animate_totalDistance (fr : Frame) (st : State) :
  totalDistance (animate_state fr st) = totalDistance st.
Proof.
  animate_cases.
Qed.

Lemma animate_previousPosition (fr : Frame) (st : State) :
  previousPosition (animate_state fr st) = previousPosition st.
Proof.
  animate_cases.
Qed.

Lemma animate_steps (fr : Frame) (st : State) :
  steps (animate_state fr st) = steps st.
Proof.
  animate_cases.
Qed.

Lemma animate_startTime (fr : Frame) (st : State) :
  startTime (animate_state fr st)
  = if Qeq_bool (startTime st) 0 then time fr else startTime st.
Proof.
  animate_cases.
Qed.

Lemma reported_iff (fr : Frame) (st : State) :
  reported fr st = Qle_bool 10 (elapsedTime st + delta fr - lastLoggedTime st).
Proof.
  animate_cases.
Qed.

Lemma animate_lastLoggedTime (fr : Frame) (st : State) :
  lastLoggedTime (animate_state fr st)
  = if reported fr st then elapsedTime (animate_state fr st) else lastLoggedTime st.
Proof.
  rewrite reported_iff. animate_cases.
Qed.

Lemma animate_log_cases (fr : Frame) (st : State) :
  animate_log fr st
  = if reported fr st
    then report_lines (elapsedTime (animate_state fr st)) (steps st) (totalDistance st)
    else [].
Proof.
  rewrite reported_iff. animate_cases.
Qed.

(** ** Basic facts about runs *)

Lemma run_from_app (st : State) (pre post : list Frame) :
  run_from st (pre ++ post) = run_from (run_from st pre) post.
Proof.
  revert st; induction pre as [|fr pre IH]; intros st; simpl.
  - reflexivity.
  - apply IH.
Qed.

Lemma run_snoc (frames : list Frame) (fr : Frame) :
  run (frames ++ [fr]) = animate_state fr (run frames).
Proof.
  unfold run. rewrite run_from_app. reflexivity.
Qed.

(** Induction over runs, one call appended at a time. *)
Lemma run_ind (P : State -> Prop) :
  P initial_state ->
  (forall fr st, P st -> P (animate_state fr st)) ->
  forall frames, P (run frames).
Proof.
  intros Hinit Hstep frames.
  induction frames as [|fr frames IH] using rev_ind.
  - exact Hinit.
  - rewrite run_snoc. apply Hstep, IH.
Qed.

Lemma run_from_totalDistance (st : State) (frames : list Frame) :
  totalDistance (run_from st frames) = totalDistance st.
Proof.
  revert st; induction frames as [|fr frames IH]; intros st; simpl.
  - reflexivity.
  - rewrite IH. apply animate_totalDistance.
Qed.

Lemma run_from_previousPosition (st : State) (frames : list Frame) :
  previousPosition (run_from st frames) = previousPosition st.
Proof.
  revert st; induction frames as [|fr frames IH]; intros st; simpl.
  - reflexivity.
  - rewrite IH. apply animate_previousPosition.
Qed.

Lemma run_from_steps (st : State) (frames : list Frame) :
  steps (run_from st frames) = steps st.
Proof.
  revert st; induction frames as [|fr frames IH]; intros st; simpl.
  - reflexivity.
  - rewrite IH. apply animate_steps.
Qed.

(** ** Report cadence *)

Lemma has_report_animate (fr : Frame) (st : State) :
  has_report (animate fr st) = reported fr st.
Proof. reflexivity. Qed.

Lemma reported_threshold (fr : Frame) (st : State) :
  reported fr st = true
  <-> (10 <= elapsedTime (animate_state fr st) - lastLoggedTime st)%Q.
Proof.
  rewrite reported_iff, animate_elapsedTime. apply Qle_bool_iff.
Qed.

(** [lastLoggedTime] never moves backwards. *)
Lemma lastLoggedTime_mono (fr : Frame) (st : State) :
  (lastLoggedTime st <= lastLoggedTime (animate_state fr st))%Q.
Proof.
  rewrite animate_lastLoggedTime.
  destruct (reported fr st) eqn:E.
  - apply reported_threshold in E. lra.
  - lra.
Qed.

(** A report later in a trace is at least ten seconds after the
    [lastLoggedTime] the trace started from. *)
Lemma report_after_start (frames : list Frame) :
  forall st k entry,
    nth_error (trace_from st frames) k = Some entry ->
    has_report entry = true ->
    (10 <= elapsedTime (fst entry) - lastLoggedTime st)%Q.
Proof.
  induction frames as [|fr frames IH]; intros st k entry Hk Hrep.
  - destruct k; discriminate.
  - destruct k as [|k]; simpl in Hk.
    + injection Hk as <-. rewrite has_report_animate in Hrep.
      apply reported_threshold in Hrep. exact Hrep.
    + specialize (IH _ _ _ Hk Hrep).
      pose proof (lastLoggedTime_mono fr st). lra.
Qed.

(** Two reports of one trace are at least ten accumulated seconds apart. *)
Lemma reports_ten_apart (frames : list Frame) :
  forall st j k ej ek,
    (j < k)%nat ->
    nth_error (trace_from st frames) j = Some ej -> has_report ej = true ->
    nth_error (trace_from st frames) k = Some ek -> has_report ek = true ->
    (10 <= elapsedTime (fst ek) - elapsedTime (fst ej))%Q.
Proof.
  induction frames as [|fr frames IH]; intros st j k ej ek Hjk Hj Rj Hk Rk.
  - destruct j; discriminate.
  - destruct k as [|k]; [lia|].
    destruct j as [|j]; simpl in Hj, Hk.
    + injection Hj as <-. rewrite has_report_animate in Rj.
      pose proof (report_after_start _ _ _ _ Hk Rk) as H.
      rewrite animate_lastLoggedTime, Rj in H. exact H.
    + apply (IH (animate_state fr st) j k); auto with arith.
Qed.


(** ** Accumulated time *)

(** One call with a non-negative delta lowers neither accumulator. *)
Lemma animate_monotone (fr : Frame) (st : State) :
  (0 <= delta fr)%Q ->
  (elapsedTime st <= elapsedTime (animate_state fr st))%Q
  /\ (totalDistance st <= totalDistance (animate_state fr st))%Q.
Proof.
  intros Hd. rewrite animate_elapsedTime, animate_totalDistance. split; lra.
Qed.

Lemma nonneg_deltas_app (pre post : list Frame) :
  nonneg_deltas (pre ++ post) -> nonneg_deltas pre /\ nonneg_deltas post.
Proof. apply Forall_app. Qed.


(** ** The accumulators the loop never writes *)

(** Every entry of a trace is the result of [animate] on the state reached
    by the calls before it. *)
Lemma trace_from_entry (frames : list Frame) :
  forall st entry,
    In entry (trace_from st frames) ->
    exists pre fr post,
      frames = (pre ++ fr :: post)%list /\ entry = animate fr (run_from st pre).
Proof.
  induction frames as [|fr frames IH]; intros st entry Hin; simpl in Hin.
  - contradiction.
  - destruct Hin as [<- | Hin].
    + exists [], fr, frames. split; reflexivity.
    + destruct (IH _ _ Hin) as (pre & fr' & post & -> & ->).
      exists (fr :: pre), fr', post. split; reflexivity.
Qed.

Lemma totalDistance_run (frames : list Frame) :
  totalDistance (run frames) = 0%Q.
Proof. unfold run. apply run_from_totalDistance. Qed.

Lemma previousPosition_run (frames : list Frame) :
  previousPosition (run frames) = Vector3_new.
Proof. unfold run. apply run_from_previousPosition. Qed.

Lemma steps_run (frames : list Frame) :
  steps (run frames) = 0%Z.
Proof. unfold run. apply run_from_steps. Qed.

(** C8. The step counter is zero after every call of every run, and every
    report written during a run has ["Steps Taken: 0"] as its second
    line. *)
Theorem C8_steps_always_zero (frames : list Frame) :
  steps (run frames) = 0%Z
  /\ forall entry,
       In entry (trace frames) ->
       steps (fst entry) = 0%Z
       /\ (has_report entry = true ->
           nth_error (snd entry) 1 = Some "Steps Taken: 0").
Proof.
  split; [apply steps_run|].
  intros entry Hin.
  apply trace_from_entry in Hin as (pre & fr & post & _ & ->).
  fold (run pre). fold (animate_state fr (run pre)).
  split.
  - rewrite animate_steps. apply steps_run.
  - rewrite has_report_animate. intros E.
    fold (animate_log fr (run pre)).
    rewrite animate_log_cases, E, steps_run. reflexivity.
Qed.

(** C1. In scenario B the positions are five units apart, yet
    [totalDistance] is still zero after the second call: [animate] never
    reads the player position and never assigns [totalDistance], so the
    accumulator keeps its initial value over every run. *)
Theorem C1_totalDistance_never_updated :
  path_length (positions scenario_B) 5
  /\ (totalDistance (run scenario_B) == 0)%Q
  /\ ~ (totalDistance (run scenario_B) == 5)%Q
  /\ forall frames, totalDistance (run frames) = 0%Q.
Proof.
  split; [|split; [|split]].
  - change 5%Q with (5 + 0)%Q.
    apply path_cons; [|apply path_one].
    split; [lra|]. vm_compute. reflexivity.
  - rewrite totalDistance_run. reflexivity.
  - rewrite totalDistance_run. intros H. discriminate H.
  - apply totalDistance_run.
Qed.

(** C6. After a first call with the player at its start-up position,
    [previousPosition] is still the origin: [animate] never assigns
    [previousPosition], which keeps its initial value over every run. *)
Theorem C6_previousPosition_never_updated :
  map playerPosition scenario_first_frame = [player_start]
  /\ previousPosition (run scenario_first_frame) = Vector3_new
  /\ Vector3_equals (previousPosition (run scenario_first_frame)) player_start = false
  /\ forall frames, previousPosition (run frames) = Vector3_new.
Proof.
  split; [reflexivity|split; [|split]].
  - apply previousPosition_run.
  - rewrite previousPosition_run. reflexivity.
  - apply previousPosition_run.
Qed.

(** ** The start time *)

(** Once [startTime] is non-zero no later call changes it. *)
Lemma startTime_kept (st : State) (frames : list Frame) :
  ~ (startTime st == 0)%Q ->
  startTime (run_from st frames) = startTime st.
Proof.
  revert st; induction frames as [|fr frames IH]; intros st Hnz; simpl.
  - reflexivity.
  - assert (E : startTime (animate_state fr st) = startTime st).
    { rewrite animate_startTime.
      destruct (Qeq_bool (startTime st) 0) eqn:Eq; [|reflexivity].
      apply Qeq_bool_iff in Eq. contradiction. }
    rewrite IH; rewrite E; auto.
Qed.

(** When the first reading of the clock is not zero, the first call stores
    it and it stays. *)
Lemma startTime_first_reading (fr : Frame) (frames : list Frame) :
  ~ (time fr == 0)%Q ->
  startTime (run (fr :: frames)) = time fr.
Proof.
  intros Hnz. unfold run. simpl.
  rewrite startTime_kept; rewrite animate_startTime; simpl; auto.
Qed.

(** C5. With the strictly increasing readings [0] and [1/60], the first
    call leaves [startTime] at zero and the second call assigns it again:
    in the end [startTime] is the second reading, not the first. *)
Theorem C5_startTime_assigned_on_second_call :
  increasing_times scenario_clock_zero
  /\ map time scenario_clock_zero = [0%Q; 1 # 60]
  /\ startTime (run (firstn 1 scenario_clock_zero)) = 0%Q
  /\ startTime (run scenario_clock_zero) = 1 # 60
  /\ ~ (startTime (run scenario_clock_zero)
        == startTime (run (firstn 1 scenario_clock_zero)))%Q.
Proof.
  split; [|split; [|split; [|split]]].
  - simpl. split; [reflexivity|exact I].
  - reflexivity.
  - vm_compute. reflexivity.
  - vm_compute. reflexivity.
  - vm_compute. intros H. discriminate H.
Qed.

(** ** Formatting *)

Lemma string_length_append (s t : string) :
  String.length (s ++ t) = (String.length s + String.length t)%nat.
Proof.
  induction s as [|c s IH]; simpl; [reflexivity|]. now rewrite IH.
Qed.

Lemma zeros_length (k : nat) : String.length (zeros k) = k.
Proof.
  induction k as [|k IH]; simpl; [reflexivity|]. now rewrite IH.
Qed.

Lemma substring_length (s : string) :
  forall n m, (n + m <= String.length s)%nat ->
              String.length (substring n m s) = m.
Proof.
  induction s as [|c s IH]; intros n m H; simpl in H.
  - destruct n, m; simpl in *; try lia; reflexivity.
  - destruct n as [|n].
    + destruct m as [|m]; simpl; [reflexivity|].
      rewrite (IH 0%nat m); [reflexivity|lia].
    + simpl. apply IH. lia.
Qed.

Lemma substring_prefix_all (s : string) :
  substring 0 (String.length s) s = s.
Proof.
  induction s as [|c s IH]; simpl; [reflexivity|]. now rewrite IH.
Qed.

Lemma substring_split (s : string) :
  forall n m, (n + m = String.length s)%nat ->
              substring 0 n s ++ substring n m s = s.
Proof.
  induction s as [|c s IH]; intros n m H; simpl in H.
  - destruct n, m; simpl in *; try lia; reflexivity.
  - destruct n as [|n].
    + simpl in H. subst m. simpl. now rewrite substring_prefix_all.
    + simpl. rewrite IH; [reflexivity|lia].
Qed.

Lemma decimal_digits_nonempty (n : Z) :
  (1 <= String.length (decimal_digits n))%nat.
Proof.
  unfold decimal_digits, NilZero.string_of_uint.
  destruct (N.to_uint (Z.to_N n)); simpl; lia.
Qed.

Lemma to_uint_nonnil (n : N) : N.to_uint n <> Nil.
Proof.
  destruct n as [|p]; simpl; [discriminate|].
  apply DecimalPos.Unsigned.to_uint_nonnil.
Qed.

Lemma uint_of_string_zeros (k : nat) (s : string) (d : uint) :
  NilEmpty.uint_of_string s = Some d ->
  exists d', NilEmpty.uint_of_string (zeros k ++ s) = Some d'
             /\ N.of_uint d' = N.of_uint d.
Proof.
  intros H. induction k as [|k (d' & Hd' & E)]; simpl.
  - exists d. split; [exact H|reflexivity].
  - rewrite Hd'. exists (D0 d'). split; [reflexivity|exact E].
Qed.

Lemma decimal_value_padded (k : nat) (n : Z) :
  (0 <= n)%Z ->
  decimal_value (zeros k ++ decimal_digits n) = Some n.
Proof.
  intros Hn.
  assert (Hs : NilEmpty.uint_of_string (decimal_digits n)
               = Some (N.to_uint (Z.to_N n))).
  { unfold decimal_digits.
    pose proof (NilZero.usu _ (to_uint_nonnil (Z.to_N n))) as H.
    unfold NilZero.uint_of_string in H.
    destruct (NilZero.string_of_uint (N.to_uint (Z.to_N n))); [discriminate|].
    exact H. }
  destruct (uint_of_string_zeros k _ _ Hs) as (d' & Hd' & E).
  unfold decimal_value, NilZero.uint_of_string.
  destruct (zeros k ++ decimal_digits n) eqn:Em.
  - pose proof (decimal_digits_nonempty n) as Hl.
    apply (f_equal String.length) in Em.
    rewrite string_length_append in Em. simpl in Em. lia.
  - rewrite Hd'. simpl. rewrite E, DecimalN.Unsigned.of_to.
    now rewrite Z2N.id.
Qed.

(** Below [10^21], [toFixed(f)] with [f > 0] prints the sign and then the
    magnitude with exactly [f] decimal places. *)
Lemma toFixed_places (f : nat) (x : Q) :
  (0 < f)%nat ->
  (Qabs x < pow10 21)%Q ->
  exists m, toFixed f x = sign_prefix x ++ m /\ prints_magnitude f x m.
Proof.
  intros Hf Hx. unfold toFixed, sign_prefix.
  destruct (Qle_bool (pow10 21) (Qabs x)) eqn:Eb.
  { apply Qle_bool_iff in Eb. lra. }
  destruct (Nat.eqb_spec f 0) as [->|_]; [lia|].
  set (n := Qfloor (Qabs x * pow10 f + (1 # 2))).
  assert (Hn : (0 <= n)%Z).
  { change 0%Z with (Qfloor 0). apply Qfloor_resp_le.
    pose proof (Qabs_nonneg x) as Ha.
    assert (Hp : (0 <= pow10 f)%Q).
    { unfold pow10. change 0%Q with (inject_Z 0). rewrite <- Zle_Qle.
      apply Z.pow_nonneg. lia. }
    pose proof (Qmult_le_0_compat _ _ Ha Hp). lra. }
  set (m0 := if (n =? 0)%Z then "0" else decimal_digits n).
  assert (Hm0 : m0 = decimal_digits n).
  { unfold m0. destruct (Z.eqb_spec n 0) as [->|_]; reflexivity. }
  set (m := if (String.length m0 <=? f)%nat
            then zeros (f + 1 - String.length m0) ++ m0 else m0).
  assert (Hlen : (f + 1 <= String.length m)%nat).
  { unfold m. destruct (Nat.leb_spec (String.length m0) f).
    - rewrite string_length_append, zeros_length. lia.
    - lia. }
  assert (Hval : decimal_value m = Some n).
  { unfold m. destruct (String.length m0 <=? f)%nat; rewrite Hm0.
    - apply decimal_value_padded, Hn.
    - apply (decimal_value_padded 0 n Hn). }
  eexists. split; [reflexivity|].
  exists (substring 0 (String.length m - f) m),
         (substring (String.length m - f) f m), n.
  split; [reflexivity|]. split; [|split; [|split]].
  - rewrite substring_length; lia.
  - apply substring_length. lia.
  - rewrite substring_split; [exact Hval|lia].
  - unfold nearest_integer, n.
    pose proof (Qfloor_le (Qabs x * pow10 f + (1 # 2))) as H1.
    pose proof (Qlt_floor (Qabs x * pow10 f + (1 # 2))) as H2.
    rewrite inject_Z_plus in H2. change (inject_Z 1) with 1%Q in H2.
    split; lra.
Qed.

(** The console holds nothing but those reports: its length is four
    lines per reporting call. *)
Lemma console_length (frames : list Frame) :
  List.length (console frames)
  = (4 * List.length (filter has_report (trace frames)))%nat.
Proof.
  unfold console, trace. generalize initial_state as st.
  induction frames as [|fr frames IH]; intros st; simpl.
  - reflexivity.
  - rewrite List.length_app, IH, has_report_animate.
    fold (animate_log fr st). rewrite animate_log_cases.
    destruct (reported fr st); simpl; lia.
Qed.

(** ** Invariants of the reporting schedule *)

(** Right after a call no report is pending: the accumulated time is less
    than ten seconds past [lastLoggedTime]. *)
Lemma gap_after_call (fr : Frame) (st : State) :
  (elapsedTime (animate_state fr st) - lastLoggedTime (animate_state fr st) < 10)%Q.
Proof.
  rewrite animate_lastLoggedTime.
  destruct (reported fr st) eqn:E.
  - lra.
  - rewrite reported_iff in E. rewrite animate_elapsedTime.
    destruct (Qlt_le_dec (elapsedTime st + delta fr - lastLoggedTime st) 10) as [H|H].
    + exact H.
    + apply Qle_bool_iff in H. congruence.
Qed.

Lemma gap_of_run (frames : list Frame) :
  (elapsedTime (run frames) - lastLoggedTime (run frames) < 10)%Q.
Proof.
  destruct frames as [|fr frames] using rev_ind.
  - vm_compute. reflexivity.
  - rewrite run_snoc. apply gap_after_call.
Qed.

Lemma lastLoggedTime_bounds (frames : list Frame) :
  nonneg_deltas frames ->
  (0 <= lastLoggedTime (run frames) <= elapsedTime (run frames))%Q.
Proof.
  induction frames as [|fr frames IH] using rev_ind; intros Hall.
  - vm_compute. split; discriminate.
  - apply nonneg_deltas_app in Hall as [Hpre Hfr].
    apply Forall_inv in Hfr. specialize (IH Hpre).
    rewrite run_snoc, animate_lastLoggedTime, animate_elapsedTime.
    destruct (reported fr (run frames)); lra.
Qed.


(** ** The start time, in general *)

Lemma startTime_from_unset (frames : list Frame) :
  forall st,
    (startTime st == 0)%Q ->
    (startTime (run_from st frames)
     == match first_nonzero_time frames with Some t => t | None => 0 end)%Q.
Proof.
  induction frames as [|fr frames IH]; intros st Hz; simpl.
  - exact Hz.
  - assert (E : startTime (animate_state fr st) = time fr).
    { rewrite animate_startTime.
      apply Qeq_bool_iff in Hz. now rewrite Hz. }
    destruct (Qeq_bool (time fr) 0) eqn:Et.
    + apply IH. rewrite E. apply Qeq_bool_iff, Et.
    + rewrite startTime_kept; rewrite E; [reflexivity|].
      intros H. apply Qeq_bool_iff in H. congruence.
Qed.

(** X4. After any run [startTime] is the first clock reading that was not
    zero, and still zero when every reading was zero. *)
Theorem X4_startTime_is_first_nonzero_reading (frames : list Frame) :
  (startTime (run frames)
   == match first_nonzero_time frames with Some t => t | None => 0 end)%Q.
Proof.
  unfold run. apply startTime_from_unset. reflexivity.
Qed.

(** ** What the reports depend on *)

Lemma animate_reads_delta_only (fr fr' : Frame) (st st' : State) :
  delta fr = delta fr' ->
  report_inputs st = report_inputs st' ->
  animate_log fr st = animate_log fr' st'
  /\ report_inputs (animate_state fr st) = report_inputs (animate_state fr' st').
Proof.
  unfold report_inputs. intros Hd Hs. injection Hs as He Hl Hn Hdist.
  unfold animate_log, animate_state, animate. rewrite Hd, He, Hl, Hn, Hdist.
  destruct (Qle_bool 10 _); split; reflexivity.
Qed.

Lemma trace_reads_deltas_only (frames : list Frame) :
  forall frames' st st',
    map delta frames = map delta frames' ->
    report_inputs st = report_inputs st' ->
    map snd (trace_from st frames) = map snd (trace_from st' frames')
    /\ report_inputs (run_from st frames) = report_inputs (run_from st' frames').
Proof.
  induction frames as [|fr frames IH]; intros [|fr' frames'] st st' Hd Hs;
    try discriminate; simpl.
  - split; [reflexivity|exact Hs].
  - injection Hd as Hd Hrest.
    destruct (animate_reads_delta_only fr fr' st st' Hd Hs) as [Hlog Hnext].
    destruct (IH frames' _ _ Hrest Hnext) as [Htr Hrun].
    split; [|exact Hrun].
    f_equal; [exact Hlog|exact Htr].
Qed.

(** X5. Two runs whose frames carry the same deltas write the same console
    lines and end with the same accumulators, whatever the clock readings
    [time] and the player positions were. *)
Theorem X5_reports_depend_on_deltas_only (frames frames' : list Frame) :
  map delta frames = map delta frames' ->
  console frames = console frames'
  /\ report_inputs (run frames) = report_inputs (run frames').
Proof.
  intros Hd.
  destruct (trace_reads_deltas_only frames frames' initial_state initial_state Hd eq_refl)
    as [Htr Hrun].
  split; [|exact Hrun].
  unfold console, trace. now rewrite Htr.
Qed.

(** ** Frames of one second *)

Lemma one_second_step (n : nat) :
  forall k st,
    (elapsedTime st == inject_Z (Z.of_nat k))%Q ->
    (lastLoggedTime st == 10 * inject_Z (Z.of_nat (k / 10)))%Q ->
    map has_report
        (trace_from st
           (map (fun j => mkFrame 1 (inject_Z (Z.of_nat (S j))) player_start) (seq k n)))
    = map (fun j => (S j mod 10 =? 0)%nat) (seq k n).
Proof.
  induction n as [|n IH]; intros k st He Hl; [reflexivity|].
  cbn [seq map trace_from].
  set (fr := mkFrame 1 (inject_Z (Z.of_nat (S k))) player_start).
  assert (Hk : (inject_Z (Z.of_nat k)
                == 10 * inject_Z (Z.of_nat (k / 10)) + inject_Z (Z.of_nat (k mod 10)))%Q).
  { rewrite <- (inject_Z_mult 10), <- inject_Z_plus. apply inject_Z_injective.
    zify. Z.to_euclidean_division_equations. lia. }
  assert (HS : (inject_Z (Z.of_nat (S k)) == inject_Z (Z.of_nat k) + 1)%Q).
  { rewrite Nat2Z.inj_succ, <- Z.add_1_r, inject_Z_plus. reflexivity. }
  assert (Hrep : reported fr st = (S k mod 10 =? 0)%nat).
  { rewrite reported_iff. change (delta fr) with 1%Q.
    destruct (Nat.eqb_spec (S k mod 10) 0) as [E|E].
    - apply Qle_bool_iff.
      assert (Hr : Z.of_nat (k mod 10) = 9%Z)
        by (zify; Z.to_euclidean_division_equations; lia).
      rewrite Hr in Hk. change (inject_Z 9) with 9%Q in Hk. lra.
    - destruct (Qle_bool 10 (elapsedTime st + 1 - lastLoggedTime st)) eqn:B;
        [|reflexivity].
      apply Qle_bool_iff in B.
      assert (Hr : (Z.of_nat (k mod 10) <= 8)%Z)
        by (zify; Z.to_euclidean_division_equations; lia).
      rewrite Zle_Qle in Hr. change (inject_Z 8) with 8%Q in Hr. lra. }
  f_equal.
  - rewrite has_report_animate. exact Hrep.
  - apply IH.
    + rewrite animate_elapsedTime. change (delta fr) with 1%Q. lra.
    + rewrite animate_lastLoggedTime, animate_elapsedTime, Hrep.
      change (delta fr) with 1%Q.
      destruct (Nat.eqb_spec (S k mod 10) 0) as [E|E].
      * assert (Hq : (Z.of_nat (S k / 10) = Z.of_nat (k / 10) + 1)%Z)
          by (zify; Z.to_euclidean_division_equations; lia).
        assert (Hr : Z.of_nat (k mod 10) = 9%Z)
          by (zify; Z.to_euclidean_division_equations; lia).
        rewrite Hq, inject_Z_plus. rewrite Hr in Hk.
        change (inject_Z 9) with 9%Q in Hk. change (inject_Z 1) with 1%Q. lra.
      * assert (Hq : (S k / 10 = k / 10)%nat)
          by (zify; Z.to_euclidean_division_equations; lia).
        rewrite Hq. exact Hl.
Qed.

Lemma count_multiples_of_ten (n : nat) :
  List.length (filter (fun b : bool => b)
                 (map (fun j => (S j mod 10 =? 0)%nat) (seq 0 n)))
  = (n / 10)%nat.
Proof.
  induction n as [|n IH]; [reflexivity|].
  rewrite seq_S, map_app, filter_app, List.length_app, IH.
  cbn [Nat.add map filter].
  destruct (Nat.eqb_spec (S n mod 10) 0) as [E|E]; cbn [List.length];
    zify; Z.to_euclidean_division_equations; lia.
Qed.

Lemma filter_has_report (entries : list (State * list string)) :
  List.length (filter has_report entries)
  = List.length (filter (fun b : bool => b) (map has_report entries)).
Proof.
  induction entries as [|e entries IH]; simpl; [reflexivity|].
  destruct (has_report e); simpl; now rewrite IH.
Qed.


(** ** The calorie estimate *)


(** ** The digits [toFixed] prints *)

Lemma string_append_assoc (s t u : string) : (s ++ t) ++ u = s ++ (t ++ u).
Proof.
  induction s as [|c s IH]; simpl; [reflexivity|]. now rewrite IH.
Qed.

Lemma string_of_uint_revapp (a : uint) :
  forall b, NilEmpty.string_of_uint (revapp a b)
            = NilEmpty.string_of_uint (Decimal.rev a) ++ NilEmpty.string_of_uint b.
Proof.
  unfold Decimal.rev.
  induction a as [|a IH|a IH|a IH|a IH|a IH|a IH|a IH|a IH|a IH|a IH]; intros b;
    [reflexivity|..];
    simpl revapp; rewrite IH, (IH (_ Nil)), string_append_assoc; reflexivity.
Qed.

Lemma string_of_uint_app (a b : uint) :
  NilEmpty.string_of_uint (Decimal.app a b)
  = NilEmpty.string_of_uint a ++ NilEmpty.string_of_uint b.
Proof.
  unfold Decimal.app. now rewrite string_of_uint_revapp, DecimalFacts.rev_rev.
Qed.

Lemma rev_app_uint (a b : uint) :
  Decimal.rev (Decimal.app a b) = Decimal.app (Decimal.rev b) (Decimal.rev a).
Proof.
  apply DecimalFacts.to_list_inj.
  rewrite DecimalFacts.rev_spec, !DecimalFacts.app_spec, !DecimalFacts.rev_spec.
  apply List.rev_app_distr.
Qed.

Lemma lnzhead_fixed_app (l l' : list DecimalFacts.digits) :
  DecimalFacts.lnzhead l = l -> l <> [] ->
  DecimalFacts.lnzhead (l ++ l') = (l ++ l')%list.
Proof.
  destruct l as [|h t]; [congruence|]. intros Hfix _.
  destruct h; try (apply DecimalFacts.lnzhead_head_nd0; discriminate).
  exfalso. simpl in Hfix.
  pose proof (DecimalFacts.length_lnzhead t) as Hlen.
  rewrite Hfix in Hlen. simpl in Hlen. lia.
Qed.

(** The digits of [10 * q + r] are those of [q] followed by the digit [r]. *)
Lemma to_uint_snoc (q r : N) :
  (0 < q)%N -> (r < 10)%N ->
  N.to_uint (10 * q + r) = Decimal.app (N.to_uint q) (N.to_uint r).
Proof.
  intros Hq Hr.
  set (a := N.to_uint q). set (d := Decimal.app a (N.to_uint r)).
  assert (Ha : N.of_uint a = q) by apply DecimalN.Unsigned.of_to.
  assert (Hval : N.of_uint d = (10 * q + r)%N).
  { unfold d, N.of_uint. rewrite DecimalPos.Unsigned.of_uint_alt, rev_app_uint.
    assert (Hlu : DecimalPos.Unsigned.of_lu (Decimal.rev a) = q).
    { rewrite <- DecimalPos.Unsigned.of_uint_alt. exact Ha. }
    assert (Hcases : (r = 0 \/ r = 1 \/ r = 2 \/ r = 3 \/ r = 4 \/ r = 5 \/ r = 6
                      \/ r = 7 \/ r = 8 \/ r = 9)%N) by lia.
    clear Ha. revert Hlu. generalize (Decimal.rev a) as ra. intros ra Hlu.
    decompose [or] Hcases; subst r;
      cbv [N.to_uint Pos.to_uint Pos.to_little_uint Decimal.rev Decimal.app revapp
           Little.succ Little.double Little.succ_double DecimalPos.Unsigned.of_lu];
      fold DecimalPos.Unsigned.of_lu; rewrite Hlu; lia. }
  assert (Hnorm : unorm d = d).
  { assert (Hua : unorm a = a).
    { rewrite <- DecimalN.Unsigned.to_of, Ha. reflexivity. }
    assert (Hnn : nzhead a <> Nil).
    { intros E. unfold unorm in Hua. rewrite E in Hua.
      destruct q as [|p]; [lia|].
      apply (DecimalPos.Unsigned.to_uint_nonzero p). symmetry. exact Hua. }
    assert (Hnz : nzhead a = a).
    { rewrite <- (DecimalFacts.unorm_nzhead a Hnn). exact Hua. }
    assert (Hne : a <> Nil).
    { destruct q as [|p]; [lia|]. apply DecimalPos.Unsigned.to_uint_nonnil. }
    assert (Hd : nzhead d = d).
    { apply DecimalFacts.to_list_inj. unfold d.
      rewrite DecimalFacts.nzhead_spec, DecimalFacts.app_spec.
      apply lnzhead_fixed_app.
      - rewrite <- DecimalFacts.nzhead_spec, Hnz. reflexivity.
      - intros E. apply Hne. apply DecimalFacts.to_list_inj. exact E. }
    rewrite DecimalFacts.unorm_nzhead; rewrite Hd; [reflexivity|].
    intros E. apply (f_equal DecimalFacts.to_list) in E. unfold d in E.
    rewrite DecimalFacts.app_spec in E.
    simpl in E. apply app_eq_nil in E as [E _].
    apply Hne, DecimalFacts.to_list_inj, E. }
  rewrite <- Hval, DecimalN.Unsigned.to_of. exact Hnorm.
Qed.

Lemma string_of_uint_nonnil (d : uint) :
  d <> Nil -> NilZero.string_of_uint d = NilEmpty.string_of_uint d.
Proof. destruct d; [congruence|reflexivity..]. Qed.

Lemma decimal_digits_snoc (q r : Z) :
  (0 < q)%Z -> (0 <= r < 10)%Z ->
  decimal_digits (10 * q + r) = decimal_digits q ++ decimal_digits r.
Proof.
  intros Hq Hr. unfold decimal_digits.
  replace (Z.to_N (10 * q + r)) with (10 * Z.to_N q + Z.to_N r)%N by lia.
  rewrite to_uint_snoc by lia.
  rewrite !string_of_uint_nonnil; try apply to_uint_nonnil.
  - apply string_of_uint_app.
  - intros E. apply (f_equal DecimalFacts.to_list) in E.
    rewrite DecimalFacts.app_spec in E. apply app_eq_nil in E as [E _].
    apply (to_uint_nonnil (Z.to_N q)), DecimalFacts.to_list_inj, E.
Qed.

Lemma decimal_digits_one_digit (r : Z) :
  (0 <= r < 10)%Z -> String.length (decimal_digits r) = 1%nat.
Proof.
  intros Hr.
  assert (Hcases : (r = 0 \/ r = 1 \/ r = 2 \/ r = 3 \/ r = 4 \/ r = 5 \/ r = 6
                    \/ r = 7 \/ r = 8 \/ r = 9)%Z) by lia.
  decompose [or] Hcases; subst r; reflexivity.
Qed.

Lemma substring_append_left (a b : string) :
  substring 0 (String.length a) (a ++ b) = a.
Proof.
  induction a as [|c a IH]; simpl.
  - destruct b; reflexivity.
  - now rewrite IH.
Qed.

Lemma substring_append_right (a b : string) :
  substring (String.length a) (String.length b) (a ++ b) = b.
Proof.
  induction a as [|c a IH]; simpl.
  - apply substring_prefix_all.
  - exact IH.
Qed.

Lemma rounded_nonneg (x : Q) (f : nat) :
  (0 <= Qfloor (Qabs x * pow10 f + (1 # 2)))%Z.
Proof.
  change 0%Z with (Qfloor 0). apply Qfloor_resp_le.
  pose proof (Qabs_nonneg x) as Ha.
  assert (Hp : (0 <= pow10 f)%Q).
  { unfold pow10. change 0%Q with (inject_Z 0). rewrite <- Zle_Qle.
    apply Z.pow_nonneg. lia. }
  pose proof (Qmult_le_0_compat _ _ Ha Hp). lra.
Qed.

(** The digits of [n], padded to three characters, are the digits of
    [n / 100] followed by the tens digit and the units digit. *)
Lemma padded_digits (n : Z) :
  (0 <= n)%Z ->
  (if (String.length (decimal_digits n) <=? 2)%nat
   then zeros (2 + 1 - String.length (decimal_digits n)) ++ decimal_digits n
   else decimal_digits n)
  = decimal_digits (n / 100)
    ++ (decimal_digits (n / 10 mod 10) ++ decimal_digits (n mod 10)).
Proof.
  intros Hn.
  assert (H0 : (0 <= n mod 10 < 10)%Z) by (apply Z.mod_pos_bound; lia).
  assert (H1 : (0 <= n / 10 mod 10 < 10)%Z) by (apply Z.mod_pos_bound; lia).
  pose proof (decimal_digits_one_digit _ H0) as L0.
  pose proof (decimal_digits_one_digit _ H1) as L1.
  destruct (Z_lt_le_dec n 10) as [Hlt|Hge].
  - replace (n / 100)%Z with 0%Z by (Z.to_euclidean_division_equations; lia).
    replace (n / 10 mod 10)%Z with 0%Z by (Z.to_euclidean_division_equations; lia).
    replace (n mod 10)%Z with n by (Z.to_euclidean_division_equations; lia).
    rewrite (decimal_digits_one_digit n) by lia. reflexivity.
  - assert (En : decimal_digits n = decimal_digits (n / 10) ++ decimal_digits (n mod 10)).
    { rewrite <- decimal_digits_snoc;
        [f_equal|..]; Z.to_euclidean_division_equations; lia. }
    destruct (Z_lt_le_dec n 100) as [Hlt|Hge'].
    + replace (n / 100)%Z with 0%Z by (Z.to_euclidean_division_equations; lia).
      replace (n / 10 mod 10)%Z with (n / 10)%Z
        by (Z.to_euclidean_division_equations; lia).
      rewrite En, string_length_append, L0.
      rewrite (decimal_digits_one_digit (n / 10))
        by (Z.to_euclidean_division_equations; lia).
      reflexivity.
    + assert (Et : decimal_digits (n / 10)
                   = decimal_digits (n / 100) ++ decimal_digits (n / 10 mod 10)).
      { rewrite <- decimal_digits_snoc;
          [f_equal|..]; Z.to_euclidean_division_equations; lia. }
      rewrite En, Et, !string_length_append, L0, L1.
      pose proof (decimal_digits_nonempty (n / 100)) as La.
      destruct (Nat.leb_spec (String.length (decimal_digits (n / 100)) + 1 + 1) 2);
        [lia|].
      apply string_append_assoc.
Qed.

Lemma toFixed2_digits (x : Q) :
  (Qabs x < pow10 21)%Q ->
  toFixed 2 x
  = sign_prefix x
    ++ decimal_digits (Qfloor (Qabs x * 100 + (1 # 2)) / 100)
    ++ "."
    ++ decimal_digits (Qfloor (Qabs x * 100 + (1 # 2)) / 10 mod 10)
    ++ decimal_digits (Qfloor (Qabs x * 100 + (1 # 2)) mod 10).
Proof.
  intros Hx. unfold toFixed, sign_prefix.
  destruct (Qle_bool (pow10 21) (Qabs x)) eqn:Eb.
  { apply Qle_bool_iff in Eb. lra. }
  change (pow10 2) with 100%Q. cbn [Nat.eqb].
  set (n := Qfloor (Qabs x * 100 + (1 # 2))).
  assert (Hn : (0 <= n)%Z) by apply (rounded_nonneg x 2).
  replace (if (n =? 0)%Z then "0" else decimal_digits n) with (decimal_digits n)
    by (destruct (Z.eqb_spec n 0) as [->|_]; reflexivity).
  assert (H0 : (0 <= n mod 10 < 10)%Z) by (apply Z.mod_pos_bound; lia).
  assert (H1 : (0 <= n / 10 mod 10 < 10)%Z) by (apply Z.mod_pos_bound; lia).
  rewrite (padded_digits n Hn).
  set (a := decimal_digits (n / 100)).
  set (b := decimal_digits (n / 10 mod 10) ++ decimal_digits (n mod 10)).
  assert (Lb : String.length b = 2%nat).
  { unfold b. rewrite string_length_append, !decimal_digits_one_digit; auto. }
  rewrite string_length_append, Lb.
  replace (String.length a + 2 - 2)%nat with (String.length a) by lia.
  rewrite substring_append_left.
  rewrite <- Lb at 1. rewrite substring_append_right.
  reflexivity.
Qed.

(** X9. Below [10^21], [toFixed(2)] prints the sign, the integer part of
    the rounded magnitude in plain decimal digits without leading zeros,
    the point, and the tens and units digits of the hundredths. *)
Theorem X9_toFixed2_digits (x : Q) :
  (Qabs x < pow10 21)%Q ->
  toFixed 2 x
  = sign_prefix x
    ++ decimal_digits (Qfloor (Qabs x * 100 + (1 # 2)) / 100)
    ++ "."
    ++ decimal_digits (Qfloor (Qabs x * 100 + (1 # 2)) / 10 mod 10)
    ++ decimal_digits (Qfloor (Qabs x * 100 + (1 # 2)) mod 10).
Proof. apply toFixed2_digits. Qed.

(** X10. A whole number of seconds (or metres) from zero to below [10^21]
    is printed by [toFixed(2)] as its decimal digits followed by [".00"]. *)
Theorem X10_toFixed2_whole_number (m : Z) :
  (0 <= m < 10 ^ 21)%Z ->
  toFixed 2 (inject_Z m) = decimal_digits m ++ ".00".
Proof.
  intros Hm.
  assert (Ha : Qabs (inject_Z m) = inject_Z m).
  { unfold Qabs, inject_Z. now rewrite Z.abs_eq by lia. }
  assert (Hn : Qfloor (inject_Z m * 100 + (1 # 2)) = (100 * m)%Z).
  { remember (100 * m)%Z as t eqn:Et.
    unfold Qfloor, Qplus, Qmult, inject_Z. simpl. subst t.
    Z.to_euclidean_division_equations. lia. }
  rewrite toFixed2_digits.
  - rewrite Ha, Hn. unfold sign_prefix.
    replace (Qle_bool 0 (inject_Z m)) with true
      by (symmetry; apply Qle_bool_iff; change 0%Q with (inject_Z 0);
          rewrite <- Zle_Qle; lia).
    replace (100 * m / 100)%Z with m by (Z.to_euclidean_division_equations; lia).
    replace (100 * m / 10 mod 10)%Z with 0%Z
      by (Z.to_euclidean_division_equations; lia).
    replace (100 * m mod 10)%Z with 0%Z by (Z.to_euclidean_division_equations; lia).
    reflexivity.
  - rewrite Ha. unfold pow10. rewrite <- Zlt_Qlt. simpl. lia.
Qed.

(** X11. For a positive [x], [toFixed(f)] of [- x] is a minus sign
    followed by what [toFixed(f)] prints for [x] when [f] is at most 100,
    and both calls throw the RangeError when [f] is larger. *)
Theorem X11_toFixed_negative (f : nat) (x : Q) :
  (0 < x)%Q ->
  Number_toFixed f (- x) = option_map (append "-") (Number_toFixed f x).
Proof.
  intros Hx. unfold Number_toFixed.
  destruct (100 <? f)%nat; [reflexivity|].
  cbn [option_map]. f_equal. unfold toFixed.
  assert (Ha : Qabs (- x) = Qabs x).
  { destruct x as [n d]. unfold Qabs, Qopp. simpl. now rewrite Z.abs_opp. }
  rewrite Ha.
  replace (Qle_bool 0 x) with true by (symmetry; apply Qle_bool_iff; lra).
  destruct (Qle_bool 0 (- x)) eqn:E.
  - apply Qle_bool_iff in E. lra.
  - destruct (Qle_bool (pow10 21) (Qabs x)); reflexivity.
Qed.

(** ** Controllers *)

Lemma on_events_snoc (events : list XREvent) (e : XREvent) :
  on_events (events ++ [e]) = on_event e (on_events events).
Proof. unfold on_events. now rewrite fold_left_app. Qed.

Lemma last_event_snoc (p : XREvent -> bool) (events : list XREvent) (e : XREvent) :
  last_event p (events ++ [e]) = if p e then Some e else last_event p events.
Proof. unfold last_event. now rewrite rev_app_distr. Qed.

Lemma held_entry_snoc (h : Handedness) (events : list XREvent) (e : XREvent) :
  held_entry h (events ++ [e])
  = if for_hand h e
    then match e with
         | Connected i _ g => Some (mkControllerEntry i i i g)
         | Disconnected _ _ => None
         end
    else held_entry h events.
Proof.
  unfold held_entry. rewrite last_event_snoc.
  destruct (for_hand h e); [destruct e|]; reflexivity.
Qed.

(** The [controllers] object after any sequence of events: [left] and
    [right] in their places, [none] after them once an event has named it,
    each with what the last event of that hand left. *)
Lemma controllers_shape (events : list XREvent) :
  controllers (on_events events)
  = ((hand_left, held_entry hand_left events)
     :: (hand_right, held_entry hand_right events)
     :: (if existsb (for_hand hand_none) events
         then [(hand_none, held_entry hand_none events)]
         else []))%list.
Proof.
  induction events as [|e events IH] using rev_ind; [reflexivity|].
  rewrite on_events_snoc, existsb_app, !held_entry_snoc.
  cbn [existsb]. rewrite orb_false_r.
  destruct e as [i h g|i h]; cbn [on_event controllers]; rewrite IH;
    destruct h; destruct (existsb (for_hand hand_none) events); reflexivity.
Qed.

(** X12. After any sequence of [connected] and [disconnected] events,
    [controllers.left] and [controllers.right] (and [controllers.none] once
    an event has named that hand) hold what the last event of that hand
    wrote: the entry of the grip space it was dispatched on, with its
    gamepad, or [null]; without any event for the hand, [left] and [right]
    are still [null] and [none] is not a property at all. *)
Theorem X12_controllers_hold_last_event (events : list XREvent) (h : Handedness) :
  obj_get h (controllers (on_events events))
  = if Handedness_eqb h hand_none && negb (existsb (for_hand hand_none) events)
    then None
    else Some (held_entry h events).
Proof.
  rewrite controllers_shape.
  destruct h; destruct (existsb (for_hand hand_none) events); reflexivity.
Qed.

(** X13. The keys of [controllers] are always [left], [right], in this
    order, followed by [none] exactly when some event carried that
    handedness: no event removes a key or creates any other. *)
Theorem X13_controllers_keys (events : list XREvent) :
  Object_keys (controllers (on_events events))
  = ([hand_left; hand_right]
     ++ (if existsb (for_hand hand_none) events then [hand_none] else []))%list.
Proof.
  rewrite controllers_shape.
  destruct (existsb (for_hand hand_none) events); reflexivity.
Qed.

Lemma flags_follow_last_event (events : list XREvent) (i : nat) :
  rayVisible (on_events events) i
  = match last_event (for_index i) events with
    | Some (Connected _ _ _) => true
    | _ => false
    end
  /\ gripVisible (on_events events) i = rayVisible (on_events events) i.
Proof.
  induction events as [|e events [IHr IHg]] using rev_ind; [split; reflexivity|].
  rewrite on_events_snoc, last_event_snoc. unfold for_index.
  destruct e as [j h g|j h]; cbn [on_event rayVisible gripVisible event_index];
    unfold set_flag; rewrite (Nat.eqb_sym j i);
    destruct (Nat.eqb i j); split; auto.
Qed.

(** X14. As far as the listeners write them, the [visible] flags of the
    ray space and of the grip space of an index are equal after any
    sequence of events, and true exactly when the last event dispatched on
    that index was a connection. *)
Theorem X14_visible_flags_follow_last_event (events : list XREvent) (i : nat) :
  rayVisible (on_events events) i
  = match last_event (for_index i) events with
    | Some (Connected _ _ _) => true
    | _ => false
    end
  /\ gripVisible (on_events events) i = rayVisible (on_events events) i.
Proof. apply flags_follow_last_event. Qed.

Lemma connected_gamepad_held (h : Handedness) (events : list XREvent) :
  connected_gamepad h events
  = match held_entry h events with Some entry => [gamepad entry] | None => [] end.
Proof.
  unfold connected_gamepad, held_entry.
  destruct (last_event (for_hand h) events) as [[i k g|i k]|]; reflexivity.
Qed.

(** X15. One call of the first version's [animate] updates the gamepad of
    every hand whose last event was a connection, once each, in the order
    left, right, none, and only then calls [onFrame] and renders; hands
    that were disconnected or never connected get no update. *)
Theorem X15_animate_updates_connected_gamepads
        (events : list XREvent) (delta time : Q) :
  Template.animate delta time (controllers (on_events events))
  = (map Template.GamepadUpdate
         (connected_gamepad hand_left events
          ++ connected_gamepad hand_right events
          ++ connected_gamepad hand_none events)
     ++ [Template.OnFrame delta time; Template.Render])%list.
Proof.
  unfold Template.animate. f_equal.
  rewrite controllers_shape, !connected_gamepad_held.
  assert (Hnone : existsb (for_hand hand_none) events = false ->
                  held_entry hand_none events = None).
  { intros E. unfold held_entry, last_event.
    destruct (find (for_hand hand_none) (List.rev events)) as [e|] eqn:F;
      [|reflexivity].
    apply find_some in F as [Hin Hp]. apply in_rev in Hin.
    assert (existsb (for_hand hand_none) events = true)
      by (apply existsb_exists; eauto).
    congruence. }
  destruct (existsb (for_hand hand_none) events) eqn:E.
  - cbn [Object_values map snd flat_map].
    destruct (held_entry hand_left events), (held_entry hand_right events),
      (held_entry hand_none events); reflexivity.
  - rewrite (Hnone eq_refl). cbn [Object_values map snd flat_map].
    destruct (held_entry hand_left events), (held_entry hand_right events);
      reflexivity.
Qed.

End Host.

(** ** The theorems at concrete inputs *)



(** The tenth call of scenario A, the one that reports. *)
Lemma C8_steps_always_zero_witness :
  In (animate NumberToString_example (mkFrame 1 10 player_start)
        (run NumberToString_example (firstn 9 scenario_A)))
     (trace NumberToString_example scenario_A)
  /\ nth_error
       (animate_log NumberToString_example (mkFrame 1 10 player_start)
          (run NumberToString_example (firstn 9 scenario_A))) 1
     = Some "Steps Taken: 0".
Proof.
  assert (H : In (animate NumberToString_example (mkFrame 1 10 player_start)
                    (run NumberToString_example (firstn 9 scenario_A)))
                 (trace NumberToString_example scenario_A)).
  { do 9 right. left. reflexivity. }
  split; [exact H|].
  apply (proj2 (C8_steps_always_zero NumberToString_example scenario_A) _ H).
  vm_compute. reflexivity.
Defined.


(** Scenario A against the same deltas with other clock readings and the
    player at the origin. *)
Lemma X5_reports_depend_on_deltas_only_witness :
  map delta scenario_A
  = map delta (map (fun fr => mkFrame (delta fr) 0 Vector3_new) scenario_A)
  /\ console NumberToString_example scenario_A
     = console NumberToString_example
         (map (fun fr => mkFrame (delta fr) 0 Vector3_new) scenario_A).
Proof.
  assert (H : map delta scenario_A
              = map delta (map (fun fr => mkFrame (delta fr) 0 Vector3_new) scenario_A))
    by reflexivity.
  split; [exact H|].
  exact (proj1 (X5_reports_depend_on_deltas_only NumberToString_example _ _ H)).
Defined.


(** [1234.567] prints as ["1234.57"]. *)
Lemma X9_toFixed2_digits_witness :
  (Qabs (1234567 # 1000) < pow10 21)%Q
  /\ toFixed NumberToString_example 2 (1234567 # 1000) = "1234.57".
Proof.
  assert (H : (Qabs (1234567 # 1000) < pow10 21)%Q) by reflexivity.
  split; [exact H|].
  rewrite (X9_toFixed2_digits NumberToString_example _ H).
  vm_compute. reflexivity.
Defined.

(** Ten seconds print as ["10.00"]. *)
Lemma X10_toFixed2_whole_number_witness :
  (0 <= 10 < 10 ^ 21)%Z
  /\ toFixed NumberToString_example 2 (inject_Z 10) = "10.00".
Proof.
  assert (H : (0 <= 10 < 10 ^ 21)%Z) by (vm_compute; split; [discriminate|reflexivity]).
  split; [exact H|].
  rewrite (X10_toFixed2_whole_number NumberToString_example 10 H).
  vm_compute. reflexivity.
Defined.

(** [-12.345] prints as ["-12.35"], and 101 places are refused. *)
Lemma X11_toFixed_negative_witness :
  (0 < 12345 # 1000)%Q
  /\ Number_toFixed NumberToString_example 2 (- (12345 # 1000)) = Some "-12.35"
  /\ Number_toFixed NumberToString_example 101 (- (12345 # 1000)) = None.
Proof.
  assert (H : (0 < 12345 # 1000)%Q) by reflexivity.
  split; [exact H|]. split.
  - rewrite (X11_toFixed_negative NumberToString_example 2 _ H).
    vm_compute. reflexivity.
  - rewrite (X11_toFixed_negative NumberToString_example 101 _ H).
    reflexivity.
Defined.

(** ** Accumulated time and calories in binary64 *)

Lemma B_animate_elapsedTime (fr : Binary64.Frame) (st : Binary64.State) :
  Binary64.elapsedTime (Binary64.animate_state fr st) = (Binary64.elapsedTime st + Binary64.delta fr)%float.
Proof.
  unfold Binary64.animate_state, Binary64.animate.
  destruct (10 <=? _)%float; reflexivity.
Qed.

Lemma B_run_from_elapsedTime (frames : list Binary64.Frame) :
  forall st,
    Binary64.elapsedTime (Binary64.run_from st frames)
    = fold_left add (map Binary64.delta frames) (Binary64.elapsedTime st).
Proof.
  induction frames as [|fr frames IH]; intros st; simpl.
  - reflexivity.
  - rewrite IH, B_animate_elapsedTime. reflexivity.
Qed.

(** C3. After the first [N] calls of any sequence of frames [elapsedTime]
    is the binary64 sum of the first [N] deltas, added one by one from the
    left starting at zero, every addition rounded; on the eleven
    one-second frames of scenario A that sum is exact. *)
Theorem C3_elapsedTime_is_rounded_sum (frames : list Binary64.Frame) (N : nat) :
  Binary64.elapsedTime (Binary64.run (firstn N frames))
  = Binary64.sum_left (map Binary64.delta (firstn N frames))
  /\ Binary64.exact (Binary64.elapsedTime (Binary64.run (Binary64.ticking 1 0 11)))
     = Binary64.exact_sum (map Binary64.delta (Binary64.ticking 1 0 11)).
Proof.
  split.
  - unfold Binary64.run, Binary64.sum_left. apply B_run_from_elapsedTime.
  - vm_compute. reflexivity.
Qed.

(** A hundred frames of a tenth of a second: every delta is positive, the
    exact sum of the hundred deltas is above ten, and [elapsedTime] is
    below ten. *)
Lemma C3_counterexample :
  forallb (fun fr => 0 <=? Binary64.delta fr)%float (Binary64.ticking Binary64.tenth 0 100) = true
  /\ exists E S : Q,
       Binary64.exact (Binary64.elapsedTime (Binary64.run (firstn 100 (Binary64.ticking Binary64.tenth 0 100)))) = Some E
       /\ Binary64.exact_sum (map Binary64.delta (firstn 100 (Binary64.ticking Binary64.tenth 0 100))) = Some S
       /\ (E < 10)%Q /\ (10 < S)%Q /\ ~ (E == S)%Q.
Proof.
  split; [vm_compute; reflexivity|].
  destruct (Binary64.exact (Binary64.elapsedTime (Binary64.run (firstn 100 (Binary64.ticking Binary64.tenth 0 100)))))
    as [E|] eqn:HE; [|vm_compute in HE; discriminate HE].
  destruct (Binary64.exact_sum (map Binary64.delta (firstn 100 (Binary64.ticking Binary64.tenth 0 100))))
    as [S|] eqn:HS; [|vm_compute in HS; discriminate HS].
  exists E, S.
  assert (H1 : (E < 10)%Q) by (vm_compute in HE; injection HE as <-; reflexivity).
  assert (H2 : (10 < S)%Q) by (vm_compute in HS; injection HS as <-; reflexivity).
  repeat split; try assumption.
  intros Heq. rewrite Heq in H1. apply (Qlt_irrefl 10).
  apply (Qlt_trans _ S); assumption.
Qed.

(** C4. [calculateCaloriesBurned] depends on its two arguments alone and
    returns the binary64 value of [weight / 100 * 8 * duration], the
    division and the two products rounded in this order; it returns [4]
    for [(50, 1)] and [80] for [(100, 10)], where the rounded value is the
    real one, and for whole weights up to 200 and whole durations up to
    180 it is within [2^-52] of the real value, relative to it. *)
Theorem C4_calorie_formula_rounded :
  (forall weight duration,
      Binary64.calculateCaloriesBurned weight duration
      = mul (mul (div weight 100) 8) duration)
  /\ Binary64.calculateCaloriesBurned 50 1 = 4%float
  /\ Binary64.calculateCaloriesBurned 100 10 = 80%float
  /\ option_map Qred (Binary64.exact (Binary64.calculateCaloriesBurned 50 1))
     = Some (Qred (Binary64.real_calories 50 1))
  /\ option_map Qred (Binary64.exact (Binary64.calculateCaloriesBurned 100 10))
     = Some (Qred (Binary64.real_calories 100 10))
  /\ (forall w d, (w <= 200)%nat -> (d <= 180)%nat ->
        Binary64.within_rounding w d = true).
Proof.
  split; [intros; reflexivity|].
  do 4 (split; [vm_compute; reflexivity|]).
  intros w d Hw Hd.
  assert (H : forallb (fun w => forallb (Binary64.within_rounding w) (seq 0 181))
                      (seq 0 201) = true) by (vm_compute; reflexivity).
  rewrite forallb_forall in H.
  assert (Hrow : forallb (Binary64.within_rounding w) (seq 0 181) = true)
    by (apply H, in_seq; lia).
  rewrite forallb_forall in Hrow. apply Hrow, in_seq. lia.
Qed.

(** For [(55, 25)] the real formula gives [110] and the function returns
    the next binary64 value above it, printed [110.00000000000001]. *)
Lemma C4_counterexample :
  (Binary64.real_calories 55 25 == 110)%Q
  /\ Binary64.Number_toString (Binary64.calculateCaloriesBurned 55 25) = "110.00000000000001"
  /\ exists v : Q,
       Binary64.exact (Binary64.calculateCaloriesBurned 55 25) = Some v
       /\ (110 < v)%Q /\ ~ (v == Binary64.real_calories 55 25)%Q.
Proof.
  split; [vm_compute; reflexivity|]. split; [vm_compute; reflexivity|].
  destruct (Binary64.exact (Binary64.calculateCaloriesBurned 55 25)) as [v|] eqn:Hv;
    [|vm_compute in Hv; discriminate Hv].
  exists v.
  assert (H : (110 < v)%Q) by (vm_compute in Hv; injection Hv as <-; reflexivity).
  repeat split; try assumption.
  intros Heq. rewrite Heq in H. revert H. vm_compute. discriminate.
Qed.

(** ** The report in binary64 *)

Lemma B_animate_log_cases (fr : Binary64.Frame) (st : Binary64.State) :
  Binary64.animate_log fr st
  = if Binary64.reported fr st
    then Binary64.report_lines (Binary64.elapsedTime (Binary64.animate_state fr st))
                        (Binary64.steps st) (Binary64.totalDistance st)
    else [].
Proof.
  unfold Binary64.reported, Binary64.animate_log, Binary64.animate_state, Binary64.animate.
  destruct (10 <=? _)%float; reflexivity.
Qed.

Lemma B_animate_keeps (fr : Binary64.Frame) (st : Binary64.State) :
  Binary64.steps (Binary64.animate_state fr st) = Binary64.steps st
  /\ Binary64.totalDistance (Binary64.animate_state fr st) = Binary64.totalDistance st.
Proof.
  unfold Binary64.animate_state, Binary64.animate.
  destruct (10 <=? _)%float; split; reflexivity.
Qed.

Lemma B_trace_steps (frames : list Binary64.Frame) :
  forall st entry,
    In entry (Binary64.trace_from st frames) ->
    Binary64.has_report entry = true ->
    nth_error (snd entry) 1
    = Some ("Steps Taken: " ++ Binary64.Number_toString (Binary64.steps st)).
Proof.
  induction frames as [|fr frames IH]; intros st entry Hin Hrep; simpl in Hin.
  - contradiction.
  - destruct Hin as [<- | Hin].
    + fold (Binary64.animate_log fr st) in *. unfold Binary64.has_report in Hrep.
      fold (Binary64.animate_log fr st) in Hrep. fold (Binary64.reported fr st) in Hrep.
      rewrite B_animate_log_cases, Hrep. reflexivity.
    + rewrite (IH _ _ Hin Hrep).
      now rewrite (proj1 (B_animate_keeps fr st)).
Qed.

Lemma B_toFixed_digits_places (x : float) (q : Q) :
  Binary64.exact x = Some q -> (Qabs q < pow10 21)%Q ->
  exists m, Binary64.toFixed_digits 2 x = sign_prefix q ++ m /\ prints_magnitude 2 q m.
Proof.
  intros Hx Hq. unfold Binary64.toFixed_digits. rewrite Hx.
  change (toFixed_exact (Binary64.Number_toString (abs x)) 2 q)
    with (toFixed (fun _ => Binary64.Number_toString (abs x)) 2 q).
  apply toFixed_places; [lia|exact Hq].
Qed.

Lemma B_toFixed_digits_large (x : float) (q : Q) :
  Binary64.exact x = Some q -> (pow10 21 <= Qabs q)%Q ->
  Binary64.toFixed_digits 2 x = sign_prefix q ++ Binary64.Number_toString (abs x).
Proof.
  intros Hx Hq. unfold Binary64.toFixed_digits, toFixed_exact, sign_prefix. rewrite Hx.
  apply Qle_bool_iff in Hq. now rewrite Hq.
Qed.

Lemma B_whole_numbers_print (n : nat) :
  (n < 1000)%nat -> Binary64.Number_toString (Binary64.whole n) = decimal_digits (Z.of_nat n).
Proof.
  intros Hn.
  assert (H : forallb (fun k => String.eqb (Binary64.Number_toString (Binary64.whole k))
                                           (decimal_digits (Z.of_nat k)))
                      (seq 0 1000) = true) by (vm_compute; reflexivity).
  rewrite forallb_forall in H.
  apply String.eqb_eq, H, in_seq. lia.
Qed.

Lemma has_point_app (a b : string) : Binary64.has_point (a ++ "." ++ b) = true.
Proof.
  induction a as [|c a IH]; simpl in *; [reflexivity|].
  rewrite IH. apply orb_true_r.
Qed.







(** On scenario A, where every value is a whole number, the two readings
    of the source write the same console lines. *)
Lemma readings_agree_on_scenario_A :
  map snd (Binary64.trace (Binary64.ticking 1 0 11))
  = map snd (trace NumberToString_example scenario_A).
Proof. vm_compute. reflexivity. Qed.
